(** * notation sign: the signing command of cmd/notation/sign.go

    A shallow embedding of [signCommand], [runSign], [signRemote],
    [prepareRemoteSigningContent], [signLocal] and
    [validateSignatureManifest].  The command talks to its environment
    (signer set-up, registry or OCI layout, [notation.Sign], the two output
    streams); every such call is a node of a finite interaction tree
    [prog], and a run is the tree interpreted against an arbitrary
    environment, which records the calls and their answers in a trace. *)

From stdpp Require Import base option list strings gmap.
From Stdlib Require Import ZArith Ascii String.

Local Open Scope string_scope.
Local Open Scope list_scope.

(** ** Go strings *)

Module strings.

(** [strings.HasPrefix s prefix] *)
Fixpoint HasPrefix (s prefix : string) {struct prefix} : bool :=
  match prefix, s with
  | EmptyString, _ => true
  | String p prefix', String c s' => bool_decide (p = c) && HasPrefix s' prefix'
  | String _ _, EmptyString => false
  end.

(** [strings.Contains s substr]: [substr] occurs somewhere within [s]. *)
Fixpoint Contains (s substr : string) : bool :=
  HasPrefix s substr ||
  match s with
  | EmptyString => false
  | String _ s' => Contains s' substr
  end.

(** [strings.Cut s sep] for a one-byte separator: the text before and
    after the first [sep], or [None] when [sep] does not occur. *)
Fixpoint Cut (s : string) (sep : ascii) : option (string * string) :=
  match s with
  | EmptyString => None
  | String c s' =>
      if bool_decide (c = sep) then Some (EmptyString, s')
      else match Cut s' sep with
           | Some (before, after) => Some (String c before, after)
           | None => None
           end
  end.

End strings.

(** The line feed that [fmt.Println] and the [\n] of a format append. *)
Definition LF : string := String "010"%char EmptyString.

(** ** Go errors

    sign.go observes an [error] value in two ways only: through its text
    ([err.Error()], also what the verbs [%v] and [%s] print) and through
    [errors.As(err, &notation.ErrorPushSignatureFailed{})], which walks the
    chain of wrapped errors.  An error is modelled by these two
    observations. *)
Record error := mkError {
  Error : string;
  AsErrorPushSignatureFailed : bool
}.

(** [errors.New(text)], and [fmt.Errorf] with no [%w] verb: a fresh error
    that wraps nothing. *)
Definition errors_New (text : string) : error :=
  {| Error := text; AsErrorPushSignatureFailed := false |}.

(** A Go [(value, error)] return. *)
Inductive result (A : Type) : Type :=
| ok (a : A)
| err (e : error).
Arguments ok {A} a.
Arguments err {A} e.

(** ** Data *)

(** Opaque handles of the interface values [notation.Signer] and
    [notationregistry.Repository]. *)
Inductive Signer := signer_handle (id : nat).
Inductive Repository := repository_handle (id : nat).

(** [ocispec.Descriptor], with the fields a descriptor is identified by. *)
Record Descriptor := mkDescriptor {
  MediaType : string;
  Digest : string;
  Size : Z
}.

(** [registry.Reference] of oras-go. *)
Record Reference := mkReference {
  ref_Registry : string;
  ref_Repository : string;
  ref_Reference : string
}.

Record LoggingFlagOpts := { Debug : bool; Verbose : bool }.
Record SignerFlagOpts := { Key : string; SignatureFormat : string }.
Record SecureFlagOpts := { Username : string; Password : string }.

Record signOpts := mkSignOpts {
  loggingFlagOpts : LoggingFlagOpts;
  signerFlagOpts : SignerFlagOpts;
  secureFlagOpts : SecureFlagOpts;
  expiry : Z;
  pluginConfig : list string;
  userMetadata : list string;
  reference : string;
  signatureManifest : string;
  localContent : bool
}.

Record SignerSignOptions := {
  ArtifactReference : string;
  SignatureMediaType : string;
  ExpiryDuration : Z;
  PluginConfig : gmap string string
}.

Record SignOptions := {
  signerSignOptions : SignerSignOptions;
  UserMetadata : gmap string string
}.

Definition signatureManifestArtifact : string := "artifact".
Definition signatureManifestImage : string := "image".
Definition referrersTagSchemaDeleteError : string :=
  "failed to delete dangling referrers index".
Definition supportedSignatureManifest : list string :=
  [signatureManifestArtifact; signatureManifestImage].

(** ** Calls to the environment *)

Inductive stream := Stdout | Stderr.

(** The calls sign.go makes out of the process, each answered by the
    environment: signer set-up, the two repository constructors, the
    repository's [Resolve], [notation.Sign] (all of which take the context
    and can fail), and the writes to the output streams. *)
Inductive call : Type -> Type :=
| GetSigner (o : SignerFlagOpts) : call (result Signer)
| getSignatureRepositoryForSign (o : SecureFlagOpts) (reference : string)
    (ociImageManifest : bool) : call (result Repository)
| ociLayoutRepositoryForSign (path : string) (ociImageManifest : bool) :
    call (result Repository)
| Resolve (sigRepo : Repository) (reference : string) : call (result Descriptor)
| notation_Sign (signer : Signer) (sigRepo : Repository) (o : SignOptions) :
    call (result Descriptor)
| Write (f : stream) (text : string) : call unit.

(** A call together with the answer it got. *)
Inductive event :=
| EvGetSigner (o : SignerFlagOpts) (r : result Signer)
| EvRepositoryForSign (o : SecureFlagOpts) (reference : string)
    (ociImageManifest : bool) (r : result Repository)
| EvLayoutRepositoryForSign (path : string) (ociImageManifest : bool)
    (r : result Repository)
| EvResolve (sigRepo : Repository) (reference : string) (r : result Descriptor)
| EvSign (signer : Signer) (sigRepo : Repository) (o : SignOptions)
    (r : result Descriptor)
| EvWrite (f : stream) (text : string).

Definition observe {X} (c : call X) : X -> event :=
  match c in call X return X -> event with
  | GetSigner o => EvGetSigner o
  | getSignatureRepositoryForSign o r b => EvRepositoryForSign o r b
  | ociLayoutRepositoryForSign p b => EvLayoutRepositoryForSign p b
  | Resolve repo r => EvResolve repo r
  | notation_Sign s repo o => EvSign s repo o
  | Write f text => fun _ => EvWrite f text
  end.

(** ** Programs *)

Inductive prog (A : Type) : Type :=
| Ret (a : A)
| Call {X : Type} (c : call X) (k : X -> prog A).
Arguments Ret {A} a.
Arguments Call {A X} c k.

Fixpoint bind {A B} (p : prog A) (f : A -> prog B) : prog B :=
  match p with
  | Ret a => f a
  | Call c k => Call c (fun x => bind (k x) f)
  end.

Definition perform {X} (c : call X) : prog X := Call c Ret.

Declare Scope prog_scope.
Delimit Scope prog_scope with prog.
Notation "'do' x <- p ; q" := (bind p (fun x => q))
  (at level 10, x name, p at level 100, q at level 200,
   format "'[v' 'do'  x  <-  p ; '/' q ']'") : prog_scope.
Local Open Scope prog_scope.

(** An environment over a world [W] answers every call and moves on. *)
Definition environment (W : Type) : Type := forall X, call X -> W -> X * W.

(** [run env p w]: the result of [p] and the trace of its calls, in
    order, when the environment starts in [w]. *)
Fixpoint run {W A} (env : environment W) (p : prog A) (w : W) : A * list event :=
  match p with
  | Ret a => (a, [])
  | Call c k =>
      let '(x, w') := env _ c w in
      let '(a, tr) := run env (k x) w' in
      (a, observe c x :: tr)
  end.

(** [every_run p Q]: [Q] holds of the result and trace of [p] whatever
    the environment answers. *)
Fixpoint every_run {A} (p : prog A) (Q : A -> list event -> Prop) : Prop :=
  match p with
  | Ret a => Q a []
  | Call c k => forall x, every_run (k x) (fun a tr => Q a (observe c x :: tr))
  end.


(** ** Pure collaborators

    Functions sign.go calls whose bodies live elsewhere (other files of
    the package, internal/envelope, go-digest, oras-go, fmt).  They do no
    I/O; the development is parametric in them. *)
Class Collaborators := {
  (** [envelope.GetEnvelopeMediaType(sigFormat)] *)
  GetEnvelopeMediaType : string -> result string;
  (** [parseOCILayoutReference(raw)]: layout path and tag-or-digest *)
  parseOCILayoutReference : string -> result (string * string);
  (** [localArtifactReference(layoutPath, layoutReference)] *)
  localArtifactReference : string -> string -> string;
  (** [digest.Digest(s).Validate()]: [None] is Go's [nil] *)
  digest_Validate : string -> option error;
  (** [registry.ParseReference(raw)] *)
  ParseReference : string -> result Reference;
  (** [registry.Reference.String()], also what [fmt.Println] prints *)
  Reference_String : Reference -> string;
  (** the [%+v] rendering of a descriptor *)
  fmt_Descriptor : Descriptor -> string
}.

(** Modelled from the spec: the flag names [cmd.PflagPluginConfig.Name] and
    [cmd.PflagUserMetadata.Name] of internal/cmd, whose source is not at
    hand: the options "plugin-config entries" and "user-metadata entries"
    of section 6. *)
Definition PflagPluginConfig_Name : string := "plugin-config".
Definition PflagUserMetadata_Name : string := "user-metadata".

(** Modelled from the spec: [cmd.ParseFlagMap] of internal/cmd, whose
    source is not at hand.  Section 6: "turns a list of key=value strings into a mapping; rejects
    duplicates and malformed entries"; section 4.3: "error on duplicate
    keys and error on malformed key=value syntax".  An entry is cut at its
    first [=]; an entry with no [=] is malformed.  The spec gives no
    message text: the errors carry the taxonomy name of section 7. *)
Fixpoint ParseFlagMap_from (m : gmap string string) (c : list string)
    (flagName : string) : result (gmap string string) :=
  match c with
  | [] => ok m
  | entry :: c' =>
      match strings.Cut entry "="%char with
      | None =>
          err (errors_New ("InvalidArgument: malformed key=value entry "
                           +:+ entry +:+ " in flag " +:+ flagName))
      | Some (key, val) =>
          match m !! key with
          | Some _ =>
              err (errors_New ("InvalidArgument: duplicate key " +:+ key
                               +:+ " in flag " +:+ flagName))
          | None => ParseFlagMap_from (<[key := val]> m) c' flagName
          end
      end
  end.

Definition ParseFlagMap (c : list string) (flagName : string) :
    result (gmap string string) :=
  ParseFlagMap_from ∅ c flagName.

(** Modelled from the spec: [slices.Contains] of internal/slices, whose
    source is not at hand: membership of a value in a slice under [==],
    which for strings compares bytes ("validated against the fixed set",
    "case-sensitively"). *)
Fixpoint slices_Contains (s : list string) (v : string) : bool :=
  match s with
  | [] => false
  | e :: s' => if bool_decide (e = v) then true else slices_Contains s' v
  end.

(** ** Output *)

(** [fmt.Fprintln(f, a)] and [fmt.Println(a, b)]: operands separated by a
    space, a line feed appended.  The write errors are ignored by sign.go. *)
Definition Fprintln (f : stream) (a : string) : prog unit :=
  perform (Write f (a +:+ LF)).
Definition Println (a b : string) : prog unit :=
  perform (Write Stdout (a +:+ " " +:+ b +:+ LF)).

Definition referrersWarning : string :=
  "Warning: Removal of outdated referrers index is not supported by the remote registry. Garbage collection may be required.".

(** The format of the mutable-tag advisory, with [%s] filled in. *)
Definition tagWarning (tag : string) : string :=
  "Warning: Always sign the artifact using digest(@sha256:...) rather than a tag(:"
  +:+ tag +:+
  ") because tags are mutable and a tag reference can point to a different artifact than the one signed."
  +:+ LF.

Definition artifactManifestHint : string :=
  ". Possible reason: target registry does not support OCI artifact manifest. Try removing the flag `--signature-manifest artifact` to store signatures using OCI image manifest".

Section Sign.
Context {collab : Collaborators}.

(** Modelled from the spec: [resolveReference], defined in another file
    of cmd/notation that is not at hand: the Reference Resolver of section
    4.2 fed by the Reference Parser of 4.1.  "call Resolve(tagOrDigest) on the repository"; "Set
    wasTag = true when the resolved digest string differs from the
    literal input and the input does not independently pass
    digest-format validation"; "when wasTag is true, emit a non-fatal
    advisory" (the callback [fn]); lookup failures propagate unchanged
    (section 7).  The reference handed back is pinned to the resolved
    digest (scenario B). *)
Definition resolveReference (opts : SecureFlagOpts) (reference : string)
    (sigRepo : Repository) (fn : Reference -> Descriptor -> prog unit) :
    prog (result Reference) :=
  match ParseReference reference with
  | err e => Ret (err e)
  | ok ref =>
      do r <- perform (Resolve sigRepo (ref_Reference ref));
      match r with
      | err e => Ret (err e)
      | ok manifestDesc =>
          let wasTag :=
            negb (bool_decide (Digest manifestDesc = ref_Reference ref))
            && bool_decide (is_Some (digest_Validate (ref_Reference ref))) in
          if wasTag then
            do _ <- fn ref manifestDesc;
            Ret (ok {| ref_Registry := ref_Registry ref;
                       ref_Repository := ref_Repository ref;
                       ref_Reference := Digest manifestDesc |})
          else Ret (ok ref)
      end
  end.

Definition prepareRemoteSigningContent (opts : signOpts) (sigRepo : Repository) :
    prog (result (SignOptions * Reference)) :=
  match GetEnvelopeMediaType (SignatureFormat (signerFlagOpts opts)) with
  | err e => Ret (err e)
  | ok mediaType =>
  match ParseFlagMap (pluginConfig opts) PflagPluginConfig_Name with
  | err e => Ret (err e)
  | ok pluginConfig =>
  match ParseFlagMap (userMetadata opts) PflagUserMetadata_Name with
  | err e => Ret (err e)
  | ok userMetadata =>
      do r <- resolveReference (secureFlagOpts opts) (reference opts) sigRepo
                (fun ref manifestDesc =>
                   perform (Write Stderr (tagWarning (ref_Reference ref))));
      match r with
      | err e => Ret (err e)
      | ok ref =>
          let signOpts :=
            {| signerSignOptions :=
                 {| ArtifactReference := Reference_String ref;
                    SignatureMediaType := mediaType;
                    ExpiryDuration := expiry opts;
                    PluginConfig := pluginConfig |};
               UserMetadata := userMetadata |} in
          Ret (ok (signOpts, ref))
      end
  end end end.

Definition signRemote (cmdOpts : signOpts) (signer : Signer)
    (ociImageManifest : bool) : prog (option error) :=
  do r <- perform (getSignatureRepositoryForSign (secureFlagOpts cmdOpts)
                     (reference cmdOpts) ociImageManifest);
  match r with
  | err e => Ret (Some e)
  | ok sigRepo =>
      do r <- prepareRemoteSigningContent cmdOpts sigRepo;
      match r with
      | err e => Ret (Some e)
      | ok (opts, ref) =>
          (* core process *)
          do r <- perform (notation_Sign signer sigRepo opts);
          match r with
          | err e =>
              if AsErrorPushSignatureFailed e then
                if negb ociImageManifest then
                  Ret (Some (errors_New (Error e +:+ artifactManifestHint)))
                else if strings.Contains (Error e) referrersTagSchemaDeleteError then
                  do _ <- Fprintln Stderr referrersWarning;
                  (* write out *)
                  do _ <- Println "Successfully signed" (Reference_String ref);
                  Ret None
                else Ret (Some e)
              else Ret (Some e)
          | ok _ =>
              do _ <- Println "Successfully signed" (Reference_String ref);
              Ret None
          end
      end
  end.

Definition signLocal (cmdOpts : signOpts) (signer : Signer)
    (ociImageManifest : bool) : prog (option error) :=
  match GetEnvelopeMediaType (SignatureFormat (signerFlagOpts cmdOpts)) with
  | err e => Ret (Some e)
  | ok mediaType =>
  match ParseFlagMap (pluginConfig cmdOpts) PflagPluginConfig_Name with
  | err e => Ret (Some e)
  | ok pluginConfig =>
  match ParseFlagMap (userMetadata cmdOpts) PflagUserMetadata_Name with
  | err e => Ret (Some e)
  | ok userMetadata =>
  match parseOCILayoutReference (reference cmdOpts) with
  | err e => Ret (Some e)
  | ok (layout_path, layout_reference) =>
      do r <- perform (ociLayoutRepositoryForSign layout_path ociImageManifest);
      match r with
      | err e => Ret (Some e)
      | ok sigRepo =>
          do r <- perform (Resolve sigRepo layout_reference);
          match r with
          | err e =>
              Ret (Some (errors_New
                ("failed to resolve OCI layout reference: " +:+ Error e)))
          | ok targetDesc =>
              do _ <- perform (Write Stdout
                        ("OCI layout reference " +:+ layout_reference
                         +:+ " resolved to target manifest descriptor: "
                         +:+ fmt_Descriptor targetDesc +:+ LF));
              do _ <- (if bool_decide (is_Some (digest_Validate layout_reference))
                       then (* layout.reference is a tag *)
                            perform (Write Stderr (tagWarning layout_reference))
                       else Ret tt);
              let layout_reference := Digest targetDesc in
              let signOpts :=
                {| signerSignOptions :=
                     {| ArtifactReference :=
                          localArtifactReference layout_path layout_reference;
                        SignatureMediaType := mediaType;
                        ExpiryDuration := expiry cmdOpts;
                        PluginConfig := pluginConfig |};
                   UserMetadata := userMetadata |} in
              (* core process *)
              do r <- perform (notation_Sign signer sigRepo signOpts);
              match r with
              | err e => Ret (Some e)
              | ok targetDesc =>
                  do _ <- Println "Successfully signed"
                            (layout_path +:+ "@" +:+ Digest targetDesc);
                  Ret None
              end
          end
      end
  end end end end.

Definition validateSignatureManifest (signatureManifest : string) : bool :=
  slices_Contains supportedSignatureManifest signatureManifest.

(** [cmdOpts.LoggingFlagOpts.SetLoggerLevel] only decorates the
    context, which the model does not carry. *)
Definition runSign (cmdOpts : signOpts) : prog (option error) :=
  (* initialize *)
  do r <- perform (GetSigner (signerFlagOpts cmdOpts));
  match r with
  | err e => Ret (Some e)
  | ok signer =>
      let ociImageManifest :=
        bool_decide (signatureManifest cmdOpts = signatureManifestImage) in
      if localContent cmdOpts then signLocal cmdOpts signer ociImageManifest
      else signRemote cmdOpts signer ociImageManifest
  end.

(** The [%v] rendering of [supportedSignatureManifest], a [[]string]. *)
Definition fmt_supportedSignatureManifest : string :=
  "[" +:+ signatureManifestArtifact +:+ " " +:+ signatureManifestImage +:+ "]".

(** [opts.reference = r] *)
Definition set_reference (opts : signOpts) (r : string) : signOpts :=
  mkSignOpts (loggingFlagOpts opts) (signerFlagOpts opts)
    (secureFlagOpts opts) (expiry opts) (pluginConfig opts)
    (userMetadata opts) r (signatureManifest opts) (localContent opts).

(** The two callbacks of the [cobra.Command] that [signCommand] builds. *)
Record Command := {
  Args : list string -> result signOpts;
  RunE : signOpts -> prog (option error)
}.

Definition signCommand (opts : signOpts) : Command :=
  {| Args := fun args =>
       match args with
       | [] => err (errors_New "missing reference")
       | arg0 :: _ => ok (set_reference opts arg0)
       end;
     RunE := fun opts =>
       (* sanity check *)
       if negb (validateSignatureManifest (signatureManifest opts)) then
         Ret (Some (errors_New
           ("signature manifest must be one of the following "
            +:+ fmt_supportedSignatureManifest +:+ " but got "
            +:+ signatureManifest opts)))
       else runSign opts |}.

(** cobra validates the positional arguments with [Args] and only then
    calls [RunE]; [Args] stores the reference in the options that
    [RunE] reads. *)
Definition execute (c : Command) (args : list string) : prog (option error) :=
  match Args c args with
  | err e => Ret (Some e)
  | ok opts => RunE c opts
  end.

End Sign.

(** ** What a trace shows *)

(** The line [fmt.Println("Successfully signed", r)] writes. *)
Definition successLine (r : string) : string :=
  "Successfully signed" +:+ " " +:+ r +:+ LF.

Definition is_success_line (ev : event) : bool :=
  match ev with
  | EvWrite Stdout text => strings.HasPrefix text "Successfully signed "
  | _ => false
  end.





(** An entry of a key=value flag that [ParseFlagMap] cannot cut. *)
Definition malformed (entry : string) : Prop :=
  strings.Cut entry "="%char = None.

(** The keys of the entries that can be cut. *)
Definition flag_keys (c : list string) : list string :=
  omap (fun entry => fst <$> strings.Cut entry "="%char) c.







(** What a run wrote to a stream, in order. *)
Definition written (f : stream) (tr : list event) : list string :=
  omap (fun ev =>
          match ev with
          | EvWrite g text =>
              match f, g with
              | Stdout, Stdout | Stderr, Stderr => Some text
              | _, _ => None
              end
          | _ => None
          end) tr.

(** ** A concrete instance: collaborators and a scripted environment *)

Module Fixture.

Fixpoint CutLast (s : string) (sep : ascii) : option (string * string) :=
  match s with
  | EmptyString => None
  | String c s' =>
      match CutLast s' sep with
      | Some (before, after) => Some (String c before, after)
      | None => if bool_decide (c = sep) then Some (EmptyString, s') else None
      end
  end.

Definition is_hex (c : ascii) : bool :=
  let n := nat_of_ascii c in
  ((48 <=? n)%nat && (n <=? 57)%nat) || ((97 <=? n)%nat && (n <=? 102)%nat).

Fixpoint all_hex (s : string) : bool :=
  match s with
  | EmptyString => true
  | String c s' => is_hex c && all_hex s'
  end.

(** sha256 digests only: [sha256:] and 64 lower-case hex digits. *)
Definition validate (s : string) : option error :=
  match strings.Cut s ":"%char with
  | Some (alg, hex) =>
      if bool_decide (alg = "sha256") && (String.length hex =? 64)%nat && all_hex hex
      then None else Some (errors_New "invalid checksum digest format")
  | None => Some (errors_New "invalid checksum digest format")
  end.

Definition parseLayout (raw : string) : result (string * string) :=
  match CutLast raw "@"%char with
  | Some pr => ok pr
  | None =>
      match CutLast raw ":"%char with
      | Some (p, String c r) => ok (p, String c r)
      | _ => err (errors_New "reference is missing either digest or tag")
      end
  end.

Definition parseRemote (raw : string) : result Reference :=
  match strings.Cut raw "/"%char with
  | None => err (errors_New "invalid reference: missing repository")
  | Some (host, rest) =>
      match CutLast rest "@"%char with
      | Some (repo, r) => ok (mkReference host repo r)
      | None =>
          match CutLast rest ":"%char with
          | Some (repo, r) => ok (mkReference host repo r)
          | None => ok (mkReference host rest "")
          end
      end
  end.

Definition render (r : Reference) : string :=
  ref_Registry r +:+ "/" +:+ ref_Repository r
  +:+ match validate (ref_Reference r) with
      | None => "@"
      | Some _ => ":"
      end
  +:+ ref_Reference r.

#[export] Instance collaborators : Collaborators := {|
  GetEnvelopeMediaType f :=
    if bool_decide (f = "jws") then ok "application/jose+json"
    else if bool_decide (f = "cose") then ok "application/cose"
    else err (errors_New ("signature format " +:+ f +:+ " not supported"));
  parseOCILayoutReference := parseLayout;
  localArtifactReference p r := p +:+ "@" +:+ r;
  digest_Validate := validate;
  ParseReference := parseRemote;
  Reference_String := render;
  fmt_Descriptor d := "{MediaType:" +:+ MediaType d +:+ " Digest:" +:+ Digest d +:+ "}"
|}.

(** The answers a scripted environment gives; its world never changes. *)
Record Script := {
  signer_answer : result Signer;
  repository_answer : result Repository;
  resolve_answer : result Descriptor;
  sign_answer : result Descriptor
}.

Definition scripted : environment Script :=
  fun X c =>
    match c in call X return Script -> X * Script with
    | GetSigner _ => fun w => (signer_answer w, w)
    | getSignatureRepositoryForSign _ _ _ => fun w => (repository_answer w, w)
    | ociLayoutRepositoryForSign _ _ => fun w => (repository_answer w, w)
    | Resolve _ _ => fun w => (resolve_answer w, w)
    | notation_Sign _ _ _ => fun w => (sign_answer w, w)
    | Write _ _ => fun w => (tt, w)
    end.

Definition sha_abcd : string :=
  "sha256:abcdabcdabcdabcdabcdabcdabcdabcdabcdabcdabcdabcdabcdabcdabcdabcd".
Definition sha_ef01 : string :=
  "sha256:ef01ef01ef01ef01ef01ef01ef01ef01ef01ef01ef01ef01ef01ef01ef01ef01".

Definition manifest (digest : string) : Descriptor :=
  {| MediaType := "application/vnd.oci.image.manifest.v1+json";
     Digest := digest; Size := 528 |}.

Definition options (pluginConfig : list string) (signatureManifest : string)
    (localContent : bool) : signOpts :=
  {| loggingFlagOpts := {| Debug := false; Verbose := false |};
     signerFlagOpts := {| Key := "default"; SignatureFormat := "jws" |};
     secureFlagOpts := {| Username := ""; Password := "" |};
     expiry := 0;
     pluginConfig := pluginConfig;
     userMetadata := [];
     reference := "";
     signatureManifest := signatureManifest;
     localContent := localContent |}.

(** Everything succeeds; the reference resolves to [digest]. *)
Definition resolves_to (digest : string) : Script :=
  {| signer_answer := ok (signer_handle 0);
     repository_answer := ok (repository_handle 0);
     resolve_answer := ok (manifest digest);
     sign_answer := ok (manifest digest) |}.

Definition all_good : Script := resolves_to sha_abcd.

Definition push_failed (text : string) : error :=
  {| Error := text; AsErrorPushSignatureFailed := true |}.

(** The push of the signature fails with [e]. *)
Definition push_fails (e : error) : Script :=
  {| signer_answer := ok (signer_handle 0);
     repository_answer := ok (repository_handle 0);
     resolve_answer := ok (manifest sha_abcd);
     sign_answer := err e |}.

(** One argument, no flag entries, on the scripted environment. *)
Definition sign (kind : string) (localContent : bool) (arg : string)
    (s : Script) : option error * list event :=
  run scripted
    (execute (signCommand (collab := collaborators)
                (options [] kind localContent)) [arg]) s.

End Fixture.

(** ** Further readings of a trace *)

Definition is_sign (ev : event) : bool :=
  match ev with
  | EvSign _ _ _ _ => true
  | _ => false
  end.

Definition is_write (ev : event) : bool :=
  match ev with
  | EvWrite _ _ => true
  | _ => false
  end.

(** Signer set-up and the two repository constructors. *)
Definition is_construction (ev : event) : bool :=
  match ev with
  | EvGetSigner _ _ | EvRepositoryForSign _ _ _ _
  | EvLayoutRepositoryForSign _ _ _ => true
  | _ => false
  end.

(** The error a set-up call was answered with, if it failed. *)
Definition construction_error (ev : event) : option error :=
  match ev with
  | EvGetSigner _ (err e) | EvRepositoryForSign _ _ _ (err e)
  | EvLayoutRepositoryForSign _ _ (err e) => Some e
  | _ => None
  end.

(** The environment answered the call without an error. *)
Definition answered_ok (ev : event) : bool :=
  match ev with
  | EvGetSigner _ (err _) | EvRepositoryForSign _ _ _ (err _)
  | EvLayoutRepositoryForSign _ _ (err _) | EvResolve _ _ (err _)
  | EvSign _ _ _ (err _) => false
  | _ => true
  end.

(** What follows the first call of [notation.Sign] in a trace. *)
Fixpoint after_first_sign (tr : list event) : list event :=
  match tr with
  | [] => []
  | ev :: tr' => if is_sign ev then tr' else after_first_sign tr'
  end.

(** The line [signLocal] prints once the layout reference has resolved. *)
Definition resolvedLine {collab : Collaborators} (layout_reference : string)
    (targetDesc : Descriptor) : string :=
  "OCI layout reference " +:+ layout_reference
  +:+ " resolved to target manifest descriptor: "
  +:+ fmt_Descriptor targetDesc +:+ LF.

(** A repository constructor was called as [runSign] dispatches: the
    remote one only without [--local-content], on the reference given on
    the command line, the local one only with it, on the path parsed from
    that reference; the flag is set for kind "image" and clear for kind
    "artifact". *)
Definition well_dispatched {collab : Collaborators} (opts : signOpts)
    (arg0 : string) (ev : event) : Prop :=
  match ev with
  | EvRepositoryForSign o r ociImageManifest _ =>
      localContent opts = false /\ o = secureFlagOpts opts /\ r = arg0 /\
      signatureManifest opts = (if ociImageManifest then "image" else "artifact")
  | EvLayoutRepositoryForSign layout_path ociImageManifest _ =>
      localContent opts = true /\
      (exists tag, parseOCILayoutReference arg0 = ok (layout_path, tag)) /\
      signatureManifest opts = (if ociImageManifest then "image" else "artifact")
  | _ => True
  end.

(** The order in which [signLocal] and [prepareRemoteSigningContent]
    examine the options before they resolve anything: signature format,
    plugin-config, user-metadata and, with [--local-content], the layout
    reference.  The first error found, if any. *)
Definition first_validation_error {collab : Collaborators} (opts : signOpts) :
    option error :=
  match GetEnvelopeMediaType (SignatureFormat (signerFlagOpts opts)) with
  | err e => Some e
  | ok _ =>
  match ParseFlagMap (pluginConfig opts) PflagPluginConfig_Name with
  | err e => Some e
  | ok _ =>
  match ParseFlagMap (userMetadata opts) PflagUserMetadata_Name with
  | err e => Some e
  | ok _ =>
      if localContent opts then
        match parseOCILayoutReference (reference opts) with
        | err e => Some e
        | ok _ => None
        end
      else None
  end end end.

(** ** The set-up of the end-to-end test values

    Package [notation] of the end-to-end tests reads ten environment
    variables into package-level variables when it is loaded, and panics on
    the first that is empty or, for a path, not absolute.  The variables are a
    store indexed by name, standard output is the list of texts printed,
    and a panic ends the run with its value and the state reached. *)

Module E2E.

(** The package-level string variables, as a pointer to each is passed
    around; [TestRegistry_Host] is the field [TestRegistry.Host]. *)
Inductive variable :=
| TestRegistry_Host | TestRegistry_Username | TestRegistry_Password
| NotationBinPath | NotationOldBinPath | NotationE2EPluginPath
| NotationE2EConfigPath | NotationE2ELocalKeysDir
| NotationE2ETrustPolicyDir | NotationE2EConfigJsonDir
| OCILayoutPath | TestRepoUri | TestTag | RegistryStoragePath.

#[export] Instance variable_eq_dec : EqDecision variable.
Proof. solve_decision. Defined.

Record state := {
  vars : variable -> string;
  printed : list string
}.

Inductive outcome :=
| Returned (s : state)
| Panicked (v : string) (s : state).

(** Sequencing: a panic skips what follows. *)
Definition and_then (o : outcome) (f : state -> outcome) : outcome :=
  match o with
  | Returned s => f s
  | Panicked v s => Panicked v s
  end.

Notation "o >>> f" := (and_then o f) (at level 50, left associativity).

(** [*value = x] *)
Definition assign (value : variable) (x : string) (s : state) : state :=
  {| vars := fun v => if decide (v = value) then x else vars s v;
     printed := printed s |}.

(** [fmt.Printf] of an already formatted text. *)
Definition Printf (text : string) (s : state) : state :=
  {| vars := vars s; printed := printed s ++ [text] |}.

Definition envKeyRegistryHost : string := "NOTATION_E2E_REGISTRY_HOST".
Definition envKeyRegistryUsername : string := "NOTATION_E2E_REGISTRY_USERNAME".
Definition envKeyRegistryPassword : string := "NOTATION_E2E_REGISTRY_PASSWORD".
Definition envKeyNotationBinPath : string := "NOTATION_E2E_BINARY_PATH".
Definition envKeyNotationOldBinPath : string := "NOTATION_E2E_OLD_BINARY_PATH".
Definition envKeyNotationPluginPath : string := "NOTATION_E2E_PLUGIN_PATH".
Definition envKeyNotationConfigPath : string := "NOTATION_E2E_CONFIG_PATH".
Definition envKeyOCILayoutPath : string := "NOTATION_E2E_OCI_LAYOUT_PATH".
Definition envKeyTestRepo : string := "NOTATION_E2E_TEST_REPO".
Definition envKeyTestTag : string := "NOTATION_E2E_TEST_TAG".

(** What the unit takes from elsewhere: [filepath.IsAbs] and
    [filepath.Join], which depend on the platform, the [%q] rendering of a
    string, and two constants the package declares in another file. *)
Class Platform := {
  filepath_IsAbs : string -> bool;
  filepath_Join : string -> string -> string;
  fmt_q : string -> string;
  LocalKeysDirName : string;
  LocalConfigJsonsDirName : string
}.

Section SetUp.
Context {platform : Platform}.
(** The environment variables of the process. *)
Context (environ : gmap string string).

(** [os.Getenv(key)]: the value, empty when the variable is not set. *)
Definition os_Getenv (key : string) : string := default "" (environ !! key).

Definition setValue (envKey : string) (value : variable) (s : state) : outcome :=
  let s := assign value (os_Getenv envKey) s in
  if bool_decide (vars s value = "") then
    Panicked ("env " +:+ envKey +:+ " is empty") s
  else
    Returned (Printf ("set test value $" +:+ envKey +:+ "=" +:+ vars s value +:+ LF) s).

Definition setPathValue (envKey : string) (value : variable) (s : state) : outcome :=
  setValue envKey value s >>> fun s =>
  if negb (filepath_IsAbs (vars s value)) then
    Panicked ("env " +:+ envKey +:+ "=" +:+ fmt_q (vars s value)
              +:+ " is not a absolute path") s
  else Returned s.

Definition setUpRegistry (s : state) : outcome :=
  setValue envKeyRegistryHost TestRegistry_Host s
  >>> setValue envKeyRegistryUsername TestRegistry_Username
  >>> setValue envKeyRegistryPassword TestRegistry_Password
  >>> setPathValue envKeyOCILayoutPath OCILayoutPath
  >>> setValue envKeyTestRepo TestRepoUri
  >>> setValue envKeyTestTag TestTag.

Definition setUpNotationValues (s : state) : outcome :=
  (* set Notation binary path *)
  setPathValue envKeyNotationBinPath NotationBinPath s
  >>> setPathValue envKeyNotationOldBinPath NotationOldBinPath
  (* set Notation e2e-plugin path *)
  >>> setPathValue envKeyNotationPluginPath NotationE2EPluginPath
  (* set Notation configuration paths *)
  >>> setPathValue envKeyNotationConfigPath NotationE2EConfigPath
  >>> (fun s => Returned (assign NotationE2ETrustPolicyDir
         (filepath_Join (vars s NotationE2EConfigPath) "trustpolicies") s))
  >>> (fun s => Returned (assign NotationE2ELocalKeysDir
         (filepath_Join (vars s NotationE2EConfigPath) LocalKeysDirName) s))
  >>> (fun s => Returned (assign NotationE2EConfigJsonDir
         (filepath_Join (vars s NotationE2EConfigPath) LocalConfigJsonsDirName) s)).

(** [RegisterFailHandler(Fail)] installs the assertion handler of the
    test framework and touches none of the variables. *)
Definition init (s : state) : outcome :=
  setUpRegistry s >>> setUpNotationValues.

(** *** The same set-up as a table *)

(** One row per environment variable, in the order [init] reads them:
    the key, the variable it goes to, and whether it must be an absolute
    path. *)
Definition checks : list (string * variable * bool) :=
  [ (envKeyRegistryHost, TestRegistry_Host, false);
    (envKeyRegistryUsername, TestRegistry_Username, false);
    (envKeyRegistryPassword, TestRegistry_Password, false);
    (envKeyOCILayoutPath, OCILayoutPath, true);
    (envKeyTestRepo, TestRepoUri, false);
    (envKeyTestTag, TestTag, false);
    (envKeyNotationBinPath, NotationBinPath, true);
    (envKeyNotationOldBinPath, NotationOldBinPath, true);
    (envKeyNotationPluginPath, NotationE2EPluginPath, true);
    (envKeyNotationConfigPath, NotationE2EConfigPath, true) ].

Definition check (row : string * variable * bool) : state -> outcome :=
  let '(envKey, value, is_path) := row in
  if is_path then setPathValue envKey value else setValue envKey value.

Fixpoint run_checks (rows : list (string * variable * bool)) (s : state) : outcome :=
  match rows with
  | [] => Returned s
  | row :: rows' => check row s >>> run_checks rows'
  end.

(** The variable of a row is set and non-empty and, for a path, absolute. *)
Definition passes (row : string * variable * bool) : Prop :=
  os_Getenv row.1.1 <> "" /\
  (row.2 = true -> filepath_IsAbs (os_Getenv row.1.1) = true).

(** The line a row prints once its variable is read. *)
Definition line (row : string * variable * bool) : string :=
  "set test value $" +:+ row.1.1 +:+ "=" +:+ os_Getenv row.1.1 +:+ LF.

(** What a passing row does to the state. *)
Definition accept (s : state) (row : string * variable * bool) : state :=
  Printf (line row) (assign row.1.2 (os_Getenv row.1.1) s).

(** The three directories derived from the configuration path. *)
Definition derive (s : state) : state :=
  assign NotationE2EConfigJsonDir
    (filepath_Join (vars s NotationE2EConfigPath) LocalConfigJsonsDirName)
    (assign NotationE2ELocalKeysDir
       (filepath_Join (vars s NotationE2EConfigPath) LocalKeysDirName)
       (assign NotationE2ETrustPolicyDir
          (filepath_Join (vars s NotationE2EConfigPath) "trustpolicies") s)).

End SetUp.

(** A Unix platform and an environment for the examples. *)
Definition unix : Platform :=
  {| filepath_IsAbs p := strings.HasPrefix p "/";
     filepath_Join dir name := dir +:+ "/" +:+ name;
     fmt_q text := String "034" (text +:+ String "034" EmptyString);
     LocalKeysDirName := "localkeys";
     LocalConfigJsonsDirName := "configjsons" |}.

Definition zero : state := {| vars := fun _ => ""; printed := [] |}.

Definition complete_environ : gmap string string :=
  list_to_map
    [ (envKeyRegistryHost, "localhost:5000");
      (envKeyRegistryUsername, "testuser");
      (envKeyRegistryPassword, "testpassword");
      (envKeyOCILayoutPath, "/e2e/testdata/oci-layout");
      (envKeyTestRepo, "e2e");
      (envKeyTestTag, "v1");
      (envKeyNotationBinPath, "/e2e/bin/notation");
      (envKeyNotationOldBinPath, "/e2e/bin/notation.old");
      (envKeyNotationPluginPath, "/e2e/bin/e2e-plugin");
      (envKeyNotationConfigPath, "/e2e/testdata/config") ].

End E2E.

(** ** Runs *)

Lemma every_run_sound {A} (p : prog A) Q :
  every_run p Q ->
  forall W (env : environment W) w, Q (run env p w).1 (run env p w).2.
Proof.
  revert Q. induction p as [a | X c k IH]; intros Q HQ W env w; simpl in *.
  - exact HQ.
  - destruct (env X c w) as [x w'] eqn:Hx.
    specialize (IH x _ (HQ x) W env w').
    destruct (run env (k x) w') as [a tr]. exact IH.
Qed.

(** ** Strings *)

Lemma Contains_app_l (s t substr : string) :
  strings.Contains s substr = true -> strings.Contains (s +:+ t) substr = true.
Proof.
  assert (Hpre : forall p a b, strings.HasPrefix a p = true ->
                               strings.HasPrefix (a +:+ b) p = true).
  { induction p as [|c p IH]; intros [|d a] b; simpl; try done.
    intros [Hc Hp]%andb_prop. rewrite Hc. simpl. by apply IH. }
  induction s as [|c s IH]; simpl.
  - rewrite orb_false_r. intros Hp. destruct substr; [|done].
    destruct t; reflexivity.
  - intros [Hp | Hc]%orb_prop.
    + change (String c (s +:+ t)) with (String c s +:+ t).
      rewrite (Hpre _ _ _ Hp). reflexivity.
    + rewrite (IH Hc). apply orb_true_r.
Qed.

Lemma Contains_app_r (s t substr : string) :
  strings.Contains t substr = true -> strings.Contains (s +:+ t) substr = true.
Proof.
  intros Ht. induction s as [|c s IH]; simpl.
  - destruct t; exact Ht.
  - rewrite IH. apply orb_true_r.
Qed.

(** [strings.Contains] finds [substr] exactly when the text splits around it. *)
Lemma Contains_spec (s substr : string) :
  strings.Contains s substr = true <->
  exists before after, s = before +:+ substr +:+ after.
Proof.
  assert (Hpre : forall p a, strings.HasPrefix a p = true <->
                             exists after, a = p +:+ after).
  { induction p as [|c p IH]; intros a; simpl.
    - split; [intros _; by exists a | done].
    - destruct a as [|d a]; simpl.
      + split; [done | intros [? ?]; done].
      + rewrite andb_true_iff, bool_decide_eq_true, IH.
        split.
        * intros [-> [after ->]]. by exists after.
        * intros [after Heq]. injection Heq as -> ->. eauto. }
  split.
  - induction s as [|c s IH]; simpl.
    + rewrite orb_false_r. intros [after Ha]%Hpre. by exists "", after.
    + intros [Hp | Hc]%orb_prop.
      * apply Hpre in Hp as [after Ha]. by exists "", after.
      * destruct (IH Hc) as (before & after & ->).
        by exists (String c before), after.
  - intros (before & after & ->). apply Contains_app_r, Contains_app_l.
    assert (Hrefl : strings.HasPrefix substr substr = true).
    { apply Hpre. exists "". clear. induction substr as [|c t IH]; [done|].
      change (String c t = String c (t +:+ "")). by f_equal. }
    destruct substr; simpl in *; [reflexivity|]. by rewrite Hrefl.
Qed.

(** ** The flag-map parser *)

Lemma flag_keys_cons_cut entry key val c :
  strings.Cut entry "="%char = Some (key, val) ->
  flag_keys (entry :: c) = key :: flag_keys c.
Proof. intros Hcut. unfold flag_keys. simpl. by rewrite Hcut. Qed.



(** Well-formed entries with distinct keys are accepted. *)
Lemma ParseFlagMap_from_accepts (c : list string) (flagName : string) :
  forall m : gmap string string,
    Forall (fun entry => ~ malformed entry) c ->
    NoDup (flag_keys c) ->
    (forall k, k ∈ flag_keys c -> m !! k = None) ->
    exists m', ParseFlagMap_from m c flagName = ok m'.
Proof.
  induction c as [|entry c IH]; intros m Hwf Hnd Hfresh; simpl; [eauto|].
  inversion Hwf as [|? ? Hentry Hwf']; subst.
  destruct (strings.Cut entry "="%char) as [[key val]|] eqn:Hcut; [|done].
  rewrite (flag_keys_cons_cut _ _ _ _ Hcut) in Hnd, Hfresh.
  apply NoDup_cons in Hnd as [Hnin Hnd].
  rewrite (Hfresh key) by apply list_elem_of_here.
  apply IH; [done..|].
  intros k Hk. rewrite lookup_insert_ne by (intros ->; done).
  apply Hfresh. by apply list_elem_of_further.
Qed.

Lemma ParseFlagMap_accepts (c : list string) (flagName : string) :
  Forall (fun entry => ~ malformed entry) c -> NoDup (flag_keys c) ->
  exists m, ParseFlagMap c flagName = ok m.
Proof.
  intros Hwf Hnd. by apply ParseFlagMap_from_accepts.
Qed.

(** ** Reasoning about runs *)

(** Reduce a statement about [run] to one about every answer sequence. *)
Ltac by_every_run :=
  match goal with
  | |- context [run ?env ?p ?w] =>
      pattern (run env p w).1, (run env p w).2;
      match goal with
      | |- ?Q _ _ => refine (every_run_sound p Q _ _ env w)
      end
  end.

(** One step of symbolic execution: reduce the program, then split on
    the value the next branch examines. *)
Ltac prog_step :=
  cbn [every_run bind perform Fprintln Println observe];
  match goal with
  | |- every_run ?p _ =>
      match p with
      | context [match ?x with _ => _ end] => destruct x eqn:?
      end
  | |- forall _ : ?X, _ =>
      lazymatch type of X with
      | Prop => fail
      | _ => intro
      end
  end.

Ltac prog_unfold :=
  unfold execute, signCommand; cbn [Args RunE]; unfold set_reference;
  unfold runSign, signLocal, signRemote, prepareRemoteSigningContent,
    resolveReference;
  cbn [localContent signatureManifest reference signerFlagOpts
       secureFlagOpts pluginConfig userMetadata expiry].

(** Split a membership in an explicit trace into its cases, dropping
    the events of another kind. *)
Ltac trace_in H :=
  repeat (apply elem_of_cons in H as [H | H];
          [first [discriminate H | injection H as ?; subst] |]);
  try (apply elem_of_nil in H; destruct H).

(** Close a branch the hypotheses exclude. *)
Ltac contradictory :=
  solve [ congruence
        | match goal with H : negb _ = _ |- _ => by vm_compute in H end
        | unfold referrersTagSchemaDeleteError in *; congruence ].

Ltac solve_suffix :=
  first [ by exists [] | by eexists [_] | by eexists [_; _]
        | by eexists [_; _; _] | by eexists [_; _; _; _]
        | by eexists [_; _; _; _; _] | by eexists [_; _; _; _; _; _]
        | by eexists [_; _; _; _; _; _; _] ].

Lemma validateSignatureManifest_spec (s : string) :
  validateSignatureManifest s = true <->
  s = signatureManifestImage \/ s = signatureManifestArtifact.
Proof.
  unfold validateSignatureManifest, supportedSignatureManifest. simpl.
  repeat case_bool_decide; split; intros Hs; auto.
  - discriminate Hs.
  - destruct Hs; congruence.
Qed.



(** * Properties of the command *)

(** C10: with no positional argument the command fails with the error
    "missing reference", and it does so before anything else happens: the
    program is that error and nothing more, whatever the options (also an
    invalid signature-manifest kind), so the manifest kind is not examined,
    [GetSigner] is not called and every run has an empty trace. *)
Theorem missing_reference_first (collab : Collaborators) (opts : signOpts) :
  execute (signCommand opts) [] = Ret (Some (errors_New "missing reference")) /\
  forall W (env : environment W) (w : W),
    run env (execute (signCommand opts) []) w =
      (Some (errors_New "missing reference"), []).
Proof. split; reflexivity. Qed.

(** C3: the signature-manifest kind is checked against exactly the set
    {"image", "artifact"}, byte for byte (so "Image" and "ARTIFACT" are
    refused): with a kind in the set the command goes on to [runSign]; with
    any other string the whole command is the invalid-argument error and
    nothing more, so no call is made, nothing is resolved, signed or
    printed, and every run has an empty trace. *)
Theorem signature_manifest_validated (collab : Collaborators)
    (opts : signOpts) (arg0 : string) (args : list string) :
  let kind := signatureManifest opts in
  let rejected :=
    Some (errors_New ("signature manifest must be one of the following [artifact image] but got " +:+ kind)) in
  validateSignatureManifest kind =
    bool_decide (kind = "image" \/ kind = "artifact") /\
  execute (signCommand opts) (arg0 :: args) =
    (if bool_decide (kind = "image" \/ kind = "artifact")
     then runSign (set_reference opts arg0) else Ret rejected) /\
  (forall W (env : environment W) (w : W), run env (Ret rejected) w = (rejected, [])) /\
  validateSignatureManifest "Image" = false /\
  validateSignatureManifest "ARTIFACT" = false /\
  validateSignatureManifest "" = false /\
  validateSignatureManifest "container" = false.
Proof.
  intros kind rejected.
  assert (Hv : validateSignatureManifest kind =
               bool_decide (kind = "image" \/ kind = "artifact")).
  { destruct (validateSignatureManifest kind) eqn:Hk; symmetry.
    - apply bool_decide_eq_true, validateSignatureManifest_spec, Hk.
    - apply bool_decide_eq_false. intros Hin.
      apply validateSignatureManifest_spec in Hin. fold kind in Hin. congruence. }
  split; [exact Hv|]. split; [|split].
  - unfold execute. cbn [signCommand Args RunE set_reference signatureManifest].
    fold kind. rewrite Hv. by destruct (bool_decide _).
  - reflexivity.
  - by vm_compute.
Qed.

(** C1: in a remote run with manifest kind "image" in which
    [notation.Sign] fails with a signature-push failure whose text
    contains "failed to delete dangling referrers index", the command
    returns no error, and the run ends with the failed [notation.Sign], the
    warning on the error stream and the success line with the reference
    that was signed, in this order. *)
Theorem referrers_cleanup_failure_is_success_with_warning
    (collab : Collaborators) W (env : environment W) (w : W)
    (opts : signOpts) (args : list string)
    (signer : Signer) (sigRepo : Repository) (o : SignOptions) (e : error) :
  let out := run env (execute (signCommand opts) args) w in
  localContent opts = false ->
  signatureManifest opts = "image" ->
  EvSign signer sigRepo o (err e) ∈ out.2 ->
  AsErrorPushSignatureFailed e = true ->
  strings.Contains (Error e) "failed to delete dangling referrers index" = true ->
  out.1 = None /\
  [EvSign signer sigRepo o (err e);
   EvWrite Stderr (referrersWarning +:+ LF);
   EvWrite Stdout (successLine (ArtifactReference (signerSignOptions o)))]
    `suffix_of` out.2.
Proof.
  intros out Hlocal Hkind Hsign Hpush Hmark. subst out. revert Hsign.
  by_every_run. destruct args as [|arg0 args]; prog_unfold;
    rewrite ?Hlocal, ?Hkind;
    change (bool_decide ("image" = signatureManifestImage)) with true;
    repeat prog_step; cbn [every_run];
    intros Hsign; trace_in Hsign;
    first [ contradictory | split; [reflexivity | solve_suffix] ].
Qed.

Lemma referrers_cleanup_failure_is_success_with_warning_witness :
  let e := Fixture.push_failed
    "failed to push signature: failed to delete dangling referrers index: 405 method not allowed" in
  let o := {| signerSignOptions :=
                {| ArtifactReference := "registry.example.com/repo@" +:+ Fixture.sha_abcd;
                   SignatureMediaType := "application/jose+json";
                   ExpiryDuration := 0;
                   PluginConfig := ∅ |};
              UserMetadata := ∅ |} in
  let out := run Fixture.scripted
    (execute (signCommand (collab := Fixture.collaborators)
                (Fixture.options [] "image" false))
       ["registry.example.com/repo:v1"]) (Fixture.push_fails e) in
  EvSign (signer_handle 0) (repository_handle 0) o (err e) ∈ out.2 /\
  out.1 = None /\
  [EvSign (signer_handle 0) (repository_handle 0) o (err e);
   EvWrite Stderr (referrersWarning +:+ LF);
   EvWrite Stdout (successLine ("registry.example.com/repo@" +:+ Fixture.sha_abcd))]
    `suffix_of` out.2.
Proof.
  intros e o out.
  assert (Hin : EvSign (signer_handle 0) (repository_handle 0) o (err e) ∈ out.2).
  { vm_compute. repeat first [apply list_elem_of_here | apply list_elem_of_further]. }
  split; [exact Hin|].
  apply (referrers_cleanup_failure_is_success_with_warning
           Fixture.collaborators Fixture.Script Fixture.scripted
           (Fixture.push_fails e) (Fixture.options [] "image" false)
           ["registry.example.com/repo:v1"]
           (signer_handle 0) (repository_handle 0) o e);
    [reflexivity | reflexivity | exact Hin | reflexivity | vm_compute; reflexivity].
Defined.

(** C2: in a remote run with manifest kind "artifact" in which
    [notation.Sign] fails with a signature-push failure, whatever its text,
    the command fails; its error is the failure's text followed by the
    hint, which tells to drop [--signature-manifest artifact] and store the
    signature with the OCI image manifest; nothing follows the failed
    [notation.Sign] and no success line is printed. *)
Theorem artifact_push_failure_gives_guidance
    (collab : Collaborators) W (env : environment W) (w : W)
    (opts : signOpts) (args : list string)
    (signer : Signer) (sigRepo : Repository) (o : SignOptions) (e : error) :
  let out := run env (execute (signCommand opts) args) w in
  localContent opts = false ->
  signatureManifest opts = "artifact" ->
  EvSign signer sigRepo o (err e) ∈ out.2 ->
  AsErrorPushSignatureFailed e = true ->
  (exists e', out.1 = Some e' /\
     Error e' = Error e +:+ artifactManifestHint /\
     strings.Contains (Error e')
       "Try removing the flag `--signature-manifest artifact` to store signatures using OCI image manifest" = true) /\
  [EvSign signer sigRepo o (err e)] `suffix_of` out.2 /\
  List.filter is_success_line out.2 = [].
Proof.
  intros out Hlocal Hkind Hsign Hpush. subst out. revert Hsign.
  by_every_run. destruct args as [|arg0 args]; prog_unfold;
    rewrite ?Hlocal, ?Hkind;
    change (bool_decide ("artifact" = signatureManifestImage)) with false;
    repeat prog_step; cbn [every_run];
    intros Hsign; trace_in Hsign; try contradictory.
  all: split; [eexists; split; [reflexivity|]; split; [reflexivity|] | split; [solve_suffix | reflexivity]].
  all: apply Contains_app_r; vm_compute; reflexivity.
Qed.

Lemma artifact_push_failure_gives_guidance_witness :
  let e := Fixture.push_failed "failed to push signature: 404 not found" in
  let o := {| signerSignOptions :=
                {| ArtifactReference := "registry.example.com/repo@" +:+ Fixture.sha_abcd;
                   SignatureMediaType := "application/jose+json";
                   ExpiryDuration := 0;
                   PluginConfig := ∅ |};
              UserMetadata := ∅ |} in
  let out := run Fixture.scripted
    (execute (signCommand (collab := Fixture.collaborators)
                (Fixture.options [] "artifact" false))
       ["registry.example.com/repo:v1"]) (Fixture.push_fails e) in
  EvSign (signer_handle 0) (repository_handle 0) o (err e) ∈ out.2 /\
  (exists e', out.1 = Some e' /\
     Error e' = Error e +:+ artifactManifestHint /\
     strings.Contains (Error e')
       "Try removing the flag `--signature-manifest artifact` to store signatures using OCI image manifest" = true) /\
  [EvSign (signer_handle 0) (repository_handle 0) o (err e)] `suffix_of` out.2 /\
  List.filter is_success_line out.2 = [].
Proof.
  intros e o out.
  assert (Hin : EvSign (signer_handle 0) (repository_handle 0) o (err e) ∈ out.2).
  { vm_compute. repeat first [apply list_elem_of_here | apply list_elem_of_further]. }
  split; [exact Hin|].
  apply (artifact_push_failure_gives_guidance
           Fixture.collaborators Fixture.Script Fixture.scripted
           (Fixture.push_fails e) (Fixture.options [] "artifact" false)
           ["registry.example.com/repo:v1"]
           (signer_handle 0) (repository_handle 0) o e);
    [reflexivity | reflexivity | exact Hin | reflexivity].
Defined.

(** C9: on the local path an error of [notation.Sign], a signature-push
    failure with the referrers-index text included, is returned as it is:
    the command's error is that very error, the failed [notation.Sign] is
    the last call of the run, so no warning follows it, and no success
    line is printed. *)
Theorem local_sign_error_verbatim
    (collab : Collaborators) W (env : environment W) (w : W)
    (opts : signOpts) (args : list string)
    (signer : Signer) (sigRepo : Repository) (o : SignOptions) (e : error) :
  let out := run env (execute (signCommand opts) args) w in
  localContent opts = true ->
  EvSign signer sigRepo o (err e) ∈ out.2 ->
  out.1 = Some e /\
  [EvSign signer sigRepo o (err e)] `suffix_of` out.2 /\
  List.filter is_success_line out.2 = [].
Proof.
  intros out Hlocal Hsign. subst out. revert Hsign.
  by_every_run. destruct args as [|arg0 args]; prog_unfold;
    rewrite ?Hlocal; repeat prog_step; cbn [every_run];
    intros Hsign; trace_in Hsign;
    (split; [reflexivity | split; [solve_suffix | reflexivity]]).
Qed.

Lemma local_sign_error_verbatim_witness :
  let e := Fixture.push_failed
    "failed to push signature: failed to delete dangling referrers index: 405 method not allowed" in
  let o := {| signerSignOptions :=
                {| ArtifactReference := "/local/layout@" +:+ Fixture.sha_abcd;
                   SignatureMediaType := "application/jose+json";
                   ExpiryDuration := 0;
                   PluginConfig := ∅ |};
              UserMetadata := ∅ |} in
  let out := run Fixture.scripted
    (execute (signCommand (collab := Fixture.collaborators)
                (Fixture.options [] "image" true))
       ["/local/layout:v1"]) (Fixture.push_fails e) in
  EvSign (signer_handle 0) (repository_handle 0) o (err e) ∈ out.2 /\
  out.1 = Some e /\
  [EvSign (signer_handle 0) (repository_handle 0) o (err e)] `suffix_of` out.2 /\
  List.filter is_success_line out.2 = [].
Proof.
  intros e o out.
  assert (Hin : EvSign (signer_handle 0) (repository_handle 0) o (err e) ∈ out.2).
  { vm_compute. repeat first [apply list_elem_of_here | apply list_elem_of_further]. }
  split; [exact Hin|].
  apply (local_sign_error_verbatim
           Fixture.collaborators Fixture.Script Fixture.scripted
           (Fixture.push_fails e) (Fixture.options [] "image" true)
           ["/local/layout:v1"]
           (signer_handle 0) (repository_handle 0) o e);
    [reflexivity | exact Hin].
Defined.

(** C4: on the local path, whenever [notation.Sign] is called, the
    layout repository was opened on the layout path, the tag or digest of
    the input was resolved in that repository before, and the artifact
    reference of the signing request is [localArtifactReference] of the
    layout path and the digest of the resolved descriptor: the tag of
    the input is no part of it. *)
Theorem local_request_is_digest_pinned
    (collab : Collaborators) W (env : environment W) (w : W)
    (opts : signOpts) (arg0 : string) (args : list string)
    (signer : Signer) (sigRepo : Repository) (o : SignOptions)
    (r : result Descriptor) :
  let out := run env (execute (signCommand opts) (arg0 :: args)) w in
  localContent opts = true ->
  EvSign signer sigRepo o r ∈ out.2 ->
  exists layout_path tag image resolved pre post,
    parseOCILayoutReference arg0 = ok (layout_path, tag) /\
    out.2 = pre ++ EvResolve sigRepo tag (ok resolved) :: post /\
    EvLayoutRepositoryForSign layout_path image (ok sigRepo) ∈ pre /\
    EvSign signer sigRepo o r ∈ post /\
    ArtifactReference (signerSignOptions o) =
      localArtifactReference layout_path (Digest resolved).
Proof.
  intros out Hlocal Hsign. subst out. revert Hsign.
  by_every_run. prog_unfold; rewrite ?Hlocal; repeat prog_step;
    cbn [every_run]; intros Hsign; trace_in Hsign.
  all: subst; eexists _, _, _, _, [_; _], _.
  all: split; [reflexivity|]; split; [reflexivity|].
  all: split; [apply list_elem_of_further, list_elem_of_here|].
  all: split; [|reflexivity].
  all: repeat first [apply list_elem_of_here | apply list_elem_of_further].
Qed.

Lemma local_request_is_digest_pinned_witness :
  let o := {| signerSignOptions :=
                {| ArtifactReference := "/local/layout@" +:+ Fixture.sha_abcd;
                   SignatureMediaType := "application/jose+json";
                   ExpiryDuration := 0;
                   PluginConfig := ∅ |};
              UserMetadata := ∅ |} in
  let out := run Fixture.scripted
    (execute (signCommand (collab := Fixture.collaborators)
                (Fixture.options [] "image" true))
       ["/local/layout:v1"]) Fixture.all_good in
  EvSign (signer_handle 0) (repository_handle 0) o
    (ok (Fixture.manifest Fixture.sha_abcd)) ∈ out.2 /\
  exists layout_path tag image resolved pre post,
    Fixture.parseLayout "/local/layout:v1" = ok (layout_path, tag) /\
    out.2 = pre ++ EvResolve (repository_handle 0) tag (ok resolved) :: post /\
    EvLayoutRepositoryForSign layout_path image (ok (repository_handle 0)) ∈ pre /\
    EvSign (signer_handle 0) (repository_handle 0) o
      (ok (Fixture.manifest Fixture.sha_abcd)) ∈ post /\
    ArtifactReference (signerSignOptions o) = layout_path +:+ "@" +:+ Digest resolved.
Proof.
  intros o out.
  assert (Hin : EvSign (signer_handle 0) (repository_handle 0) o
                  (ok (Fixture.manifest Fixture.sha_abcd)) ∈ out.2).
  { vm_compute. repeat first [apply list_elem_of_here | apply list_elem_of_further]. }
  split; [exact Hin|].
  apply (local_request_is_digest_pinned
           Fixture.collaborators Fixture.Script Fixture.scripted
           Fixture.all_good (Fixture.options [] "image" true)
           "/local/layout:v1" []
           (signer_handle 0) (repository_handle 0) o
           (ok (Fixture.manifest Fixture.sha_abcd)));
    [reflexivity | exact Hin].
Defined.











(** * The end-to-end scenarios of the specification, run on the fixture *)

(** A: a digest reference, default kind: no warning, the digest is printed. *)
Example scenario_A :
  let out := Fixture.sign "image" false ("registry.example.com/repo@" +:+ Fixture.sha_abcd)
      Fixture.all_good in
  out.1 = None /\ written Stderr out.2 = [] /\
  written Stdout out.2 =
    [successLine ("registry.example.com/repo@" +:+ Fixture.sha_abcd)].
Proof. by vm_compute. Qed.

(** B: a tag: the advisory, then success naming the digest. *)
Example scenario_B :
  let out := Fixture.sign "image" false "registry.example.com/repo:v1"
      Fixture.all_good in
  out.1 = None /\ written Stderr out.2 = [tagWarning "v1"] /\
  written Stdout out.2 =
    [successLine ("registry.example.com/repo@" +:+ Fixture.sha_abcd)].
Proof. by vm_compute. Qed.

(** C: a digest in a local layout. *)
Example scenario_C :
  let out := Fixture.sign "image" true ("/local/layout@" +:+ Fixture.sha_ef01)
      (Fixture.resolves_to Fixture.sha_ef01) in
  out.1 = None /\ written Stderr out.2 = [] /\
  last (written Stdout out.2) =
    Some (successLine ("/local/layout@" +:+ Fixture.sha_ef01)).
Proof. by vm_compute. Qed.

(** D: the push fails on the removal of the stale referrers index. *)
Example scenario_D :
  let e := Fixture.push_failed "failed to delete dangling referrers index: 405" in
  let out := Fixture.sign "image" false ("registry.example.com/repo@" +:+ Fixture.sha_abcd)
      (Fixture.push_fails e) in
  out.1 = None /\ written Stderr out.2 = [referrersWarning +:+ LF] /\
  written Stdout out.2 =
    [successLine ("registry.example.com/repo@" +:+ Fixture.sha_abcd)].
Proof. by vm_compute. Qed.

(** The same failure with kind "artifact" is an error. *)
Example scenario_D_artifact :
  let e := Fixture.push_failed "failed to delete dangling referrers index: 405" in
  let out := Fixture.sign "artifact" false ("registry.example.com/repo@" +:+ Fixture.sha_abcd)
      (Fixture.push_fails e) in
  out.1 = Some (errors_New (Error e +:+ artifactManifestHint)) /\
  written Stderr out.2 = [] /\ written Stdout out.2 = [].
Proof. by vm_compute. Qed.

(** E: an invalid kind: an error at once, nothing called. *)
Example scenario_E :
  Fixture.sign "container" false "registry.example.com/repo:v1" Fixture.all_good =
    (Some (errors_New
       "signature manifest must be one of the following [artifact image] but got container"),
     []).
Proof. by vm_compute. Qed.


(** * Further properties of the command *)

(** Split a membership of an unknown event in an explicit trace, keeping
    the cases in which [Herr] names it as a failed set-up call. *)
Ltac construction_in H Herr :=
  repeat (apply elem_of_cons in H as [-> | H];
          [cbn in Herr; first [discriminate Herr | injection Herr as <-] |]);
  try (apply elem_of_nil in H; destruct H).

(** X1: when signer set-up or a repository constructor fails, the
    command returns that error as it is, the failed call is the last one
    of the run, and the run consists of set-up calls only: nothing is
    parsed into a request, resolved, signed or printed. *)
Theorem construction_failure_verbatim
    (collab : Collaborators) W (env : environment W) (w : W)
    (opts : signOpts) (args : list string) (ev : event) (e : error) :
  let out := run env (execute (signCommand opts) args) w in
  ev ∈ out.2 ->
  construction_error ev = Some e ->
  out.1 = Some e /\
  [ev] `suffix_of` out.2 /\
  List.forallb is_construction out.2 = true.
Proof.
  intros out Hin Herr. subst out. revert Hin.
  by_every_run. destruct args as [|arg0 args]; prog_unfold;
    destruct (localContent opts); repeat prog_step; cbn [every_run];
    intros Hin; construction_in Hin Herr;
    (split; [reflexivity | split; [solve_suffix | reflexivity]]).
Qed.

Lemma construction_failure_verbatim_witness :
  let e := errors_New "signing key default not found" in
  let s := {| Fixture.signer_answer := err e;
              Fixture.repository_answer := ok (repository_handle 0);
              Fixture.resolve_answer := ok (Fixture.manifest Fixture.sha_abcd);
              Fixture.sign_answer := ok (Fixture.manifest Fixture.sha_abcd) |} in
  let ev := EvGetSigner {| Key := "default"; SignatureFormat := "jws" |} (err e) in
  let out := Fixture.sign "image" false "registry.example.com/repo:v1" s in
  ev ∈ out.2 /\
  out.1 = Some e /\ [ev] `suffix_of` out.2 /\
  List.forallb is_construction out.2 = true.
Proof.
  intros e s ev out.
  assert (Hin : ev ∈ out.2) by (vm_compute; apply list_elem_of_here).
  split; [exact Hin|].
  exact (construction_failure_verbatim Fixture.collaborators Fixture.Script
           Fixture.scripted s (Fixture.options [] "image" false)
           ["registry.example.com/repo:v1"] ev e Hin eq_refl).
Defined.

(** X2: [runSign] calls the repository constructor of one path only, on
    the first positional argument (further arguments and an earlier value of
    [opts.reference] play no part); the remote constructor gets the
    reference and the credentials as given, the local one the layout path
    parsed from the reference; and since the kind has been validated, the
    flag they get is set exactly for "image" and clear exactly for
    "artifact". *)
Theorem repository_constructor_dispatch
    (collab : Collaborators) W (env : environment W) (w : W)
    (opts : signOpts) (arg0 : string) (args : list string) :
  let out := run env (execute (signCommand opts) (arg0 :: args)) w in
  Forall (well_dispatched opts arg0) out.2.
Proof.
  intros out. subst out. by_every_run. prog_unfold.
  destruct (validateSignatureManifest (signatureManifest opts)) eqn:Hv;
    [|cbn; constructor].
  apply validateSignatureManifest_spec in Hv as Hkind.
  destruct (localContent opts) eqn:Hlocal;
    destruct Hkind as [Hk | Hk]; rewrite !Hk;
    try change (bool_decide (signatureManifestImage = signatureManifestImage)) with true;
    try change (bool_decide (signatureManifestArtifact = signatureManifestImage)) with false;
    repeat prog_step; cbn [every_run]; subst;
    repeat first [ apply Forall_nil_2 | apply Forall_cons_2 ];
    cbn [well_dispatched]; try exact I; repeat split; eauto.
Qed.

(** X3: on the remote path an error of [notation.Sign] is returned as
    it is, with nothing written after the failed call, whenever it is not a
    signature-push failure (whatever its text says, the referrers-index
    text included, and whatever the kind: no hint is added), and whenever
    it is a push failure under kind "image" whose text lacks the
    referrers-index text. *)
Theorem remote_sign_error_verbatim
    (collab : Collaborators) W (env : environment W) (w : W)
    (opts : signOpts) (args : list string)
    (signer : Signer) (sigRepo : Repository) (o : SignOptions) (e : error) :
  let out := run env (execute (signCommand opts) args) w in
  localContent opts = false ->
  EvSign signer sigRepo o (err e) ∈ out.2 ->
  AsErrorPushSignatureFailed e = false \/
    (signatureManifest opts = "image" /\
     strings.Contains (Error e) referrersTagSchemaDeleteError = false) ->
  out.1 = Some e /\
  [EvSign signer sigRepo o (err e)] `suffix_of` out.2 /\
  List.filter is_success_line out.2 = [].
Proof.
  intros out Hlocal Hsign Hcase. subst out. revert Hsign.
  by_every_run.
  destruct Hcase as [Has | [Hkind Hmark]];
    destruct args as [|arg0 args]; prog_unfold; rewrite ?Hlocal, ?Hkind;
    try change (bool_decide ("image" = signatureManifestImage)) with true;
    repeat prog_step; cbn [every_run];
    intros Hsign; trace_in Hsign;
    first [ contradictory
          | split; [reflexivity | split; [solve_suffix | reflexivity]] ].
Qed.

Lemma remote_sign_error_verbatim_witness :
  let e := errors_New "signing failed: failed to delete dangling referrers index" in
  let o := {| signerSignOptions :=
                {| ArtifactReference := "registry.example.com/repo@" +:+ Fixture.sha_abcd;
                   SignatureMediaType := "application/jose+json";
                   ExpiryDuration := 0;
                   PluginConfig := ∅ |};
              UserMetadata := ∅ |} in
  let out := Fixture.sign "image" false "registry.example.com/repo:v1"
               (Fixture.push_fails e) in
  EvSign (signer_handle 0) (repository_handle 0) o (err e) ∈ out.2 /\
  out.1 = Some e /\
  [EvSign (signer_handle 0) (repository_handle 0) o (err e)] `suffix_of` out.2 /\
  List.filter is_success_line out.2 = [].
Proof.
  intros e o out.
  assert (Hin : EvSign (signer_handle 0) (repository_handle 0) o (err e) ∈ out.2).
  { vm_compute. repeat first [apply list_elem_of_here | apply list_elem_of_further]. }
  split; [exact Hin|].
  apply (remote_sign_error_verbatim
           Fixture.collaborators Fixture.Script Fixture.scripted
           (Fixture.push_fails e) (Fixture.options [] "image" false)
           ["registry.example.com/repo:v1"]
           (signer_handle 0) (repository_handle 0) o e);
    [reflexivity | exact Hin | left; reflexivity].
Defined.

(** X4: when the layout reference does not resolve, [signLocal] returns
    a new error whose text is "failed to resolve OCI layout reference: "
    followed by the cause's text; the cause is not wrapped, so the new
    error is no signature-push failure whatever the cause was; the failed
    [Resolve] is the last call, and nothing is printed or signed. *)
Theorem local_resolve_failure_is_rewritten
    (collab : Collaborators) W (env : environment W) (w : W)
    (opts : signOpts) (args : list string)
    (sigRepo : Repository) (tag : string) (e : error) :
  let out := run env (execute (signCommand opts) args) w in
  localContent opts = true ->
  EvResolve sigRepo tag (err e) ∈ out.2 ->
  out.1 = Some {| Error := "failed to resolve OCI layout reference: " +:+ Error e;
                  AsErrorPushSignatureFailed := false |} /\
  [EvResolve sigRepo tag (err e)] `suffix_of` out.2 /\
  List.filter is_write out.2 = [] /\
  List.filter is_sign out.2 = [].
Proof.
  intros out Hlocal Hres. subst out. revert Hres.
  by_every_run. destruct args as [|arg0 args]; prog_unfold; rewrite ?Hlocal;
    repeat prog_step; cbn [every_run];
    intros Hres; trace_in Hres;
    (split; [reflexivity | split; [solve_suffix | split; reflexivity]]).
Qed.

Lemma local_resolve_failure_is_rewritten_witness :
  let e := Fixture.push_failed "v1: not found" in
  let s := {| Fixture.signer_answer := ok (signer_handle 0);
              Fixture.repository_answer := ok (repository_handle 0);
              Fixture.resolve_answer := err e;
              Fixture.sign_answer := ok (Fixture.manifest Fixture.sha_abcd) |} in
  let out := Fixture.sign "image" true "/local/layout:v1" s in
  EvResolve (repository_handle 0) "v1" (err e) ∈ out.2 /\
  out.1 = Some {| Error := "failed to resolve OCI layout reference: v1: not found";
                  AsErrorPushSignatureFailed := false |} /\
  [EvResolve (repository_handle 0) "v1" (err e)] `suffix_of` out.2 /\
  List.filter is_write out.2 = [] /\
  List.filter is_sign out.2 = [].
Proof.
  intros e s out.
  assert (Hin : EvResolve (repository_handle 0) "v1" (err e) ∈ out.2).
  { vm_compute. repeat first [apply list_elem_of_here | apply list_elem_of_further]. }
  split; [exact Hin|].
  exact (local_resolve_failure_is_rewritten
           Fixture.collaborators Fixture.Script Fixture.scripted s
           (Fixture.options [] "image" true) ["/local/layout:v1"]
           (repository_handle 0) "v1" e eq_refl Hin).
Defined.

(** X5: whenever [notation.Sign] is called, on either path, it gets the
    signer that [GetSigner] returned and the repository that the
    constructor returned, and a request whose media type is the one
    looked up for the signature format, whose expiry is the [--expiry]
    value, and whose plugin configuration and user metadata are the maps
    parsed from the two flag lists. *)
Theorem signing_request_contents
    (collab : Collaborators) W (env : environment W) (w : W)
    (opts : signOpts) (args : list string)
    (signer : Signer) (sigRepo : Repository) (o : SignOptions)
    (r : result Descriptor) :
  let out := run env (execute (signCommand opts) args) w in
  EvSign signer sigRepo o r ∈ out.2 ->
  GetEnvelopeMediaType (SignatureFormat (signerFlagOpts opts)) =
    ok (SignatureMediaType (signerSignOptions o)) /\
  ExpiryDuration (signerSignOptions o) = expiry opts /\
  ParseFlagMap (pluginConfig opts) PflagPluginConfig_Name =
    ok (PluginConfig (signerSignOptions o)) /\
  ParseFlagMap (userMetadata opts) PflagUserMetadata_Name = ok (UserMetadata o) /\
  EvGetSigner (signerFlagOpts opts) (ok signer) ∈ out.2 /\
  exists ev, ev ∈ out.2 /\
    match ev with
    | EvRepositoryForSign _ _ _ (ok repo)
    | EvLayoutRepositoryForSign _ _ (ok repo) => repo = sigRepo
    | _ => False
    end.
Proof.
  intros out Hsign. subst out. revert Hsign.
  by_every_run. destruct args as [|arg0 args]; prog_unfold;
    destruct (localContent opts); repeat prog_step; cbn [every_run];
    intros Hsign; trace_in Hsign.
  all: repeat (split; [first [reflexivity | apply list_elem_of_here]|]).
  all: eexists; split;
    [apply list_elem_of_further, list_elem_of_here | reflexivity].
Qed.

Lemma signing_request_contents_witness :
  let o := {| signerSignOptions :=
                {| ArtifactReference := "/local/layout@" +:+ Fixture.sha_abcd;
                   SignatureMediaType := "application/jose+json";
                   ExpiryDuration := 0;
                   PluginConfig := {[ "region" := "eu" ]} |};
              UserMetadata := ∅ |} in
  let r := ok (Fixture.manifest Fixture.sha_abcd) in
  let opts := Fixture.options ["region=eu"] "image" true in
  let out := run Fixture.scripted
    (execute (signCommand (collab := Fixture.collaborators) opts)
       ["/local/layout:v1"]) Fixture.all_good in
  EvSign (signer_handle 0) (repository_handle 0) o r ∈ out.2 /\
  ParseFlagMap ["region=eu"] PflagPluginConfig_Name = ok {[ "region" := "eu" ]} /\
  EvGetSigner (signerFlagOpts opts) (ok (signer_handle 0)) ∈ out.2.
Proof.
  intros o r opts out.
  assert (Hin : EvSign (signer_handle 0) (repository_handle 0) o r ∈ out.2).
  { vm_compute. repeat first [apply list_elem_of_here | apply list_elem_of_further]. }
  split; [exact Hin|].
  destruct (signing_request_contents Fixture.collaborators Fixture.Script
              Fixture.scripted Fixture.all_good opts ["/local/layout:v1"]
              (signer_handle 0) (repository_handle 0) o r Hin)
    as (_ & _ & Hplugin & _ & Hsigner & _).
  split; [exact Hplugin | exact Hsigner].
Defined.

(** X6: [notation.Sign] is called at most once in a run, and after it
    the command only writes to its output streams: a failed push is not
    retried, and nothing is resolved or opened again. *)
Theorem sign_called_once_then_only_writes
    (collab : Collaborators) W (env : environment W) (w : W)
    (opts : signOpts) (args : list string) :
  let out := run env (execute (signCommand opts) args) w in
  (List.length (List.filter is_sign out.2) <= 1)%nat /\
  List.forallb is_write (after_first_sign out.2) = true.
Proof.
  intros out. subst out. by_every_run.
  destruct args as [|arg0 args]; prog_unfold;
    destruct (localContent opts); repeat prog_step; cbn [every_run];
    (split; [simpl; lia | reflexivity]).
Qed.

(** X7: on the local path, once the layout reference has resolved, the
    command prints the line with the reference as given and the resolved
    descriptor to standard output, then the mutable-tag advisory if there
    is one, and then always calls [notation.Sign] on the same repository:
    both are written before signing, whether or not signing then succeeds. *)
Theorem local_resolve_is_reported_then_signed
    (collab : Collaborators) W (env : environment W) (w : W)
    (opts : signOpts) (args : list string)
    (sigRepo : Repository) (tag : string) (resolved : Descriptor) :
  let out := run env (execute (signCommand opts) args) w in
  localContent opts = true ->
  EvResolve sigRepo tag (ok resolved) ∈ out.2 ->
  exists pre advisory signer o r post,
    out.2 = pre ++ [EvResolve sigRepo tag (ok resolved);
                    EvWrite Stdout (resolvedLine tag resolved)]
                ++ advisory ++ EvSign signer sigRepo o r :: post /\
    (advisory = [] \/ advisory = [EvWrite Stderr (tagWarning tag)]).
Proof.
  intros out Hlocal Hres. subst out. revert Hres.
  by_every_run. destruct args as [|arg0 args]; prog_unfold; rewrite ?Hlocal;
    repeat prog_step; cbn [every_run];
    intros Hres; trace_in Hres.
  all: first
    [ eexists [_; _], [], _, _, _, _; split; [reflexivity | by left]
    | eexists [_; _], [_], _, _, _, _; split; [reflexivity | by right] ].
Qed.

Lemma local_resolve_is_reported_then_signed_witness :
  let out := Fixture.sign "image" true "/local/layout:v1" Fixture.all_good in
  let resolved := Fixture.manifest Fixture.sha_abcd in
  EvResolve (repository_handle 0) "v1" (ok resolved) ∈ out.2 /\
  exists pre advisory signer o r post,
    out.2 = pre ++ [EvResolve (repository_handle 0) "v1" (ok resolved);
                    EvWrite Stdout
                      (resolvedLine (collab := Fixture.collaborators) "v1" resolved)]
                ++ advisory ++ EvSign signer (repository_handle 0) o r :: post /\
    (advisory = [] \/ advisory = [EvWrite Stderr (tagWarning "v1")]).
Proof.
  intros out resolved.
  assert (Hin : EvResolve (repository_handle 0) "v1" (ok resolved) ∈ out.2).
  { vm_compute. repeat first [apply list_elem_of_here | apply list_elem_of_further]. }
  split; [exact Hin|].
  exact (local_resolve_is_reported_then_signed
           Fixture.collaborators Fixture.Script Fixture.scripted Fixture.all_good
           (Fixture.options [] "image" true) ["/local/layout:v1"]
           (repository_handle 0) "v1" resolved eq_refl Hin).
Defined.

(** X8: both paths examine the options in the same order, after the
    set-up calls and before anything is resolved: signature format, then
    plugin-config, then user-metadata, then (local path) the layout
    reference.  When set-up succeeds, the command returns the first of
    these errors as it is, also when a later option is wrong as well, and
    has made no call but the set-up calls. *)
Theorem first_validation_error_wins
    (collab : Collaborators) W (env : environment W) (w : W)
    (opts : signOpts) (arg0 : string) (args : list string) (e : error) :
  let out := run env (execute (signCommand opts) (arg0 :: args)) w in
  validateSignatureManifest (signatureManifest opts) = true ->
  first_validation_error (set_reference opts arg0) = Some e ->
  List.forallb answered_ok out.2 = true ->
  out.1 = Some e /\ List.forallb is_construction out.2 = true.
Proof.
  intros out Hkind Hfirst Hok. subst out. revert Hfirst Hok.
  by_every_run. unfold first_validation_error. prog_unfold. rewrite Hkind.
  cbn [negb]. destruct (localContent opts); repeat prog_step; cbn [every_run];
    intros Hfirst Hok;
    first [ discriminate Hfirst | discriminate Hok
          | injection Hfirst as <-; split; reflexivity ].
Qed.

Lemma first_validation_error_wins_witness :
  let opts :=
    {| loggingFlagOpts := {| Debug := false; Verbose := false |};
       signerFlagOpts := {| Key := "default"; SignatureFormat := "pgp" |};
       secureFlagOpts := {| Username := ""; Password := "" |};
       expiry := 0;
       pluginConfig := ["a=1"; "a=2"];
       userMetadata := ["no-separator"];
       reference := "";
       signatureManifest := "image";
       localContent := true |} in
  let e := errors_New "signature format pgp not supported" in
  let out := run Fixture.scripted
    (execute (signCommand (collab := Fixture.collaborators) opts)
       ["/local/layout"]) Fixture.all_good in
  first_validation_error (collab := Fixture.collaborators)
    (set_reference opts "/local/layout") = Some e /\
  out.1 = Some e /\ List.forallb is_construction out.2 = true.
Proof.
  intros opts e out. split; [reflexivity|].
  exact (first_validation_error_wins Fixture.collaborators Fixture.Script
           Fixture.scripted Fixture.all_good opts "/local/layout" [] e
           eq_refl eq_refl eq_refl).
Defined.

(** X9: the local path has no failure of its own: when the kind is
    valid, the options and the layout reference pass their checks and
    every call is answered without an error, the command returns no
    error. *)
Theorem local_success_when_all_calls_succeed
    (collab : Collaborators) W (env : environment W) (w : W)
    (opts : signOpts) (arg0 : string) (args : list string) :
  let out := run env (execute (signCommand opts) (arg0 :: args)) w in
  localContent opts = true ->
  validateSignatureManifest (signatureManifest opts) = true ->
  first_validation_error (set_reference opts arg0) = None ->
  List.forallb answered_ok out.2 = true ->
  out.1 = None.
Proof.
  intros out Hlocal Hkind Hfirst Hok. subst out. revert Hfirst Hok.
  by_every_run. unfold first_validation_error. prog_unfold.
  rewrite Hkind, Hlocal. cbn [negb].
  repeat prog_step; cbn [every_run]; intros Hfirst Hok;
    first [ discriminate Hfirst | discriminate Hok | reflexivity ].
Qed.

Lemma local_success_when_all_calls_succeed_witness :
  let out := Fixture.sign "artifact" true "/local/layout:v1" Fixture.all_good in
  List.forallb answered_ok out.2 = true /\ out.1 = None.
Proof.
  intros out. split; [reflexivity|].
  exact (local_success_when_all_calls_succeed Fixture.collaborators
           Fixture.Script Fixture.scripted Fixture.all_good
           (Fixture.options [] "artifact" true) "/local/layout:v1" []
           eq_refl eq_refl eq_refl eq_refl).
Defined.

(** * Properties of the end-to-end test set-up *)

Section E2ESetUp.
Import E2E.
Context {platform : Platform} (environ : gmap string string).

Lemma and_then_assoc (o : outcome) (f g : state -> outcome) :
  o >>> f >>> g = o >>> (fun s => f s >>> g).
Proof. by destruct o. Qed.

Lemma vars_assign_eq (value : variable) (x : string) (s : state) :
  vars (assign value x s) value = x.
Proof. cbn. by rewrite decide_True. Qed.

Lemma vars_assign_ne (value v : variable) (x : string) (s : state) :
  v <> value -> vars (assign value x s) v = vars s v.
Proof. intros Hne. cbn. by rewrite decide_False. Qed.

(** What one row does: panic on an empty value before anything is
    printed, panic on a relative path after its line is printed, and
    otherwise store the value and print the line. *)
Lemma check_outcome (row : string * variable * bool) (s : state) :
  check environ row s =
    if bool_decide (os_Getenv environ row.1.1 = "") then
      Panicked ("env " +:+ row.1.1 +:+ " is empty")
        (assign row.1.2 (os_Getenv environ row.1.1) s)
    else if row.2 && negb (filepath_IsAbs (os_Getenv environ row.1.1)) then
      Panicked ("env " +:+ row.1.1 +:+ "=" +:+ fmt_q (os_Getenv environ row.1.1)
                +:+ " is not a absolute path") (accept environ s row)
    else Returned (accept environ s row).
Proof.
  destruct row as [[envKey value] is_path]. cbn [check fst snd].
  destruct is_path; unfold setPathValue, setValue, accept, line;
    cbn [fst snd andb]; rewrite !vars_assign_eq;
    case_bool_decide; cbn [and_then]; try reflexivity.
  change (vars (Printf ?t ?s) value) with (vars s value).
  rewrite vars_assign_eq. by destruct (filepath_IsAbs _).
Qed.

Lemma check_Returned (row : string * variable * bool) (s s' : state) :
  check environ row s = Returned s' <->
  passes environ row /\ s' = accept environ s row.
Proof.
  rewrite check_outcome. unfold passes.
  case_bool_decide as Hempty.
  { split; [done | intros [[? _] _]; done]. }
  destruct row.2; cbn [andb].
  - destruct (filepath_IsAbs _) eqn:Habs; cbn [negb].
    + split; [intros [= <-]; auto | intros [_ ->]; done].
    + split; [done | intros [[_ Hp] _]]. by specialize (Hp eq_refl).
  - split; [intros [= <-]; split; [split|]; done | intros [_ ->]; done].
Qed.

Lemma run_checks_Returned (rows : list (string * variable * bool))
    (s s' : state) :
  run_checks environ rows s = Returned s' <->
  Forall (passes environ) rows /\ s' = foldl (accept environ) s rows.
Proof.
  revert s. induction rows as [|row rows IH]; intros s; cbn [run_checks foldl].
  - split; [intros [= <-]; auto | intros [_ ->]; done].
  - rewrite Forall_cons. destruct (check environ row s) as [s1 | v s1] eqn:Hrow;
      cbn [and_then].
    + apply check_Returned in Hrow as [Hp ->]. rewrite IH. tauto.
    + split; [done | intros [[Hp _] _]].
      assert (Hret : check environ row s = Returned (accept environ s row))
        by by apply check_Returned.
      congruence.
Qed.

Lemma run_checks_Panicked (rows : list (string * variable * bool))
    (s s' : state) (v : string) :
  run_checks environ rows s = Panicked v s' ->
  exists before row after,
    rows = before ++ row :: after /\
    Forall (passes environ) before /\
    check environ row (foldl (accept environ) s before) = Panicked v s'.
Proof.
  revert s. induction rows as [|row rows IH]; intros s; cbn [run_checks]; [done|].
  destruct (check environ row s) as [s1 | v1 s1] eqn:Hrow; cbn [and_then].
  - apply check_Returned in Hrow as [Hp ->].
    intros (before & row' & after & -> & Hbefore & Hcheck)%IH.
    exists (row :: before), row', after. by repeat split; [constructor|].
  - intros [= -> ->]. by exists [], row, rows.
Qed.

Lemma printed_foldl_accept (rows : list (string * variable * bool)) (s : state) :
  printed (foldl (accept environ) s rows) = printed s ++ (line environ <$> rows).
Proof.
  revert s. induction rows as [|row rows IH]; intros s; cbn [foldl fmap list_fmap].
  - by rewrite app_nil_r.
  - rewrite IH. cbn. by rewrite <- app_assoc.
Qed.

(** [init] is the table run row by row, followed by the three derived
    directories. *)
Lemma init_table (s : state) :
  init environ s =
    run_checks environ checks s >>> fun s => Returned (derive s).
Proof.
  unfold init, setUpRegistry, setUpNotationValues, checks, derive.
  cbn [run_checks check]. rewrite !and_then_assoc.
  repeat (destruct (setValue environ _ _ _) || destruct (setPathValue environ _ _ _);
          cbn [and_then]; try reflexivity).
Qed.

(** X10: loading the package succeeds exactly when each of the ten
    environment variables is set to a non-empty value and each of the five
    that hold a path (OCI layout, the two binaries, the plugin, the
    configuration directory) is absolute; a variable that is not set and
    one set to the empty string are refused alike. *)
Theorem init_returns_iff (s : state) :
  (exists s', init environ s = Returned s') <->
  Forall (passes environ) checks.
Proof.
  rewrite init_table. split.
  - intros [s' Hinit].
    destruct (run_checks environ checks s) as [s1 | v s1] eqn:Hrun; [|done].
    by apply run_checks_Returned in Hrun as [Hall _].
  - intros Hall. eexists.
    by rewrite (proj2 (run_checks_Returned checks s _) (conj Hall eq_refl)).
Qed.

(** X11: when loading succeeds, every variable of the table holds the
    value of its own environment variable, the three directories are the
    configuration path joined with "trustpolicies", [LocalKeysDirName]
    and [LocalConfigJsonsDirName], [RegistryStoragePath] is left as it
    was, and exactly ten lines were printed, one per variable, in the
    order of the table. *)
Theorem init_values (s s' : state) :
  init environ s = Returned s' ->
  (forall envKey value is_path,
      (envKey, value, is_path) ∈ checks ->
      vars s' value = os_Getenv environ envKey) /\
  vars s' NotationE2ETrustPolicyDir =
    filepath_Join (os_Getenv environ envKeyNotationConfigPath) "trustpolicies" /\
  vars s' NotationE2ELocalKeysDir =
    filepath_Join (os_Getenv environ envKeyNotationConfigPath) LocalKeysDirName /\
  vars s' NotationE2EConfigJsonDir =
    filepath_Join (os_Getenv environ envKeyNotationConfigPath) LocalConfigJsonsDirName /\
  vars s' RegistryStoragePath = vars s RegistryStoragePath /\
  printed s' = printed s ++ (line environ <$> checks).
Proof.
  rewrite init_table.
  destruct (run_checks environ checks s) as [s1 | v s1] eqn:Hrun; [|done].
  apply run_checks_Returned in Hrun as [_ ->]. intros [= <-].
  split; [|repeat split; try reflexivity].
  - intros envKey value is_path Hin. unfold checks in Hin.
    repeat (apply elem_of_cons in Hin as [[= -> -> ->] | Hin]; [reflexivity|]).
    by apply elem_of_nil in Hin.
  - exact (printed_foldl_accept checks s).
Qed.

(** X12: when loading panics, it is on the first row of the table that
    does not pass.  If its variable is empty the panic value is "env KEY
    is empty" and only the lines of the rows before it were printed; if it
    is a relative path the panic value quotes it, and its own line was
    printed as well before the panic. *)
Theorem init_panics_at_first_failure (s s' : state) (v : string) :
  init environ s = Panicked v s' ->
  exists before row after,
    checks = before ++ row :: after /\
    Forall (passes environ) before /\
    ((os_Getenv environ row.1.1 = "" /\
      v = "env " +:+ row.1.1 +:+ " is empty" /\
      printed s' = printed s ++ (line environ <$> before))
     \/
     (os_Getenv environ row.1.1 <> "" /\ row.2 = true /\
      filepath_IsAbs (os_Getenv environ row.1.1) = false /\
      v = "env " +:+ row.1.1 +:+ "=" +:+ fmt_q (os_Getenv environ row.1.1)
          +:+ " is not a absolute path" /\
      printed s' = printed s ++ (line environ <$> before) ++ [line environ row])).
Proof.
  rewrite init_table.
  destruct (run_checks environ checks s) as [s1 | v1 s1] eqn:Hrun; [done|].
  intros [= -> ->].
  apply run_checks_Panicked in Hrun as (before & row & after & Hrows & Hbefore & Hrow).
  exists before, row, after. split; [done|]. split; [done|].
  rewrite check_outcome in Hrow. case_bool_decide as Hempty.
  - left. injection Hrow as <- <-. cbn [assign printed].
    by rewrite printed_foldl_accept.
  - right. destruct row.2; cbn [andb] in Hrow; [|done].
    destruct (filepath_IsAbs _) eqn:Habs; cbn [negb] in Hrow; [done|].
    injection Hrow as <- <-. repeat split; try done.
    cbn. by rewrite printed_foldl_accept, <- app_assoc.
Qed.

End E2ESetUp.

Lemma init_values_witness :
  let s' := match E2E.init (platform := E2E.unix) E2E.complete_environ E2E.zero with
            | E2E.Returned s | E2E.Panicked _ s => s
            end in
  E2E.init (platform := E2E.unix) E2E.complete_environ E2E.zero = E2E.Returned s' /\
  E2E.vars s' E2E.TestRegistry_Host = "localhost:5000" /\
  E2E.vars s' E2E.NotationE2ELocalKeysDir = "/e2e/testdata/config/localkeys" /\
  E2E.vars s' E2E.RegistryStoragePath = "" /\
  List.length (E2E.printed s') = 10%nat.
Proof.
  intros s'.
  assert (Hinit : E2E.init (platform := E2E.unix) E2E.complete_environ E2E.zero
                  = E2E.Returned s') by (vm_compute; reflexivity).
  split; [exact Hinit|].
  destruct (init_values (platform := E2E.unix) E2E.complete_environ
              E2E.zero s' Hinit) as (Hvars & _ & Hkeys & _ & Hstorage & Hprinted).
  split; [|split; [|split]].
  - exact (Hvars E2E.envKeyRegistryHost E2E.TestRegistry_Host false
             ltac:(apply list_elem_of_here)).
  - exact Hkeys.
  - exact Hstorage.
  - rewrite Hprinted. reflexivity.
Defined.

Lemma init_panics_at_first_failure_witness :
  let environ := <[E2E.envKeyOCILayoutPath := "testdata/oci-layout"]>
                   E2E.complete_environ in
  let v := "env NOTATION_E2E_OCI_LAYOUT_PATH=" +:+
           E2E.fmt_q (Platform := E2E.unix) "testdata/oci-layout" +:+
           " is not a absolute path" in
  let s' := match E2E.init (platform := E2E.unix) environ E2E.zero with
            | E2E.Returned s | E2E.Panicked _ s => s
            end in
  E2E.init (platform := E2E.unix) environ E2E.zero = E2E.Panicked v s' /\
  exists before row after,
    E2E.checks = before ++ row :: after /\
    Forall (E2E.passes (platform := E2E.unix) environ) before /\
    ((E2E.os_Getenv environ row.1.1 = "" /\
      v = "env " +:+ row.1.1 +:+ " is empty" /\
      E2E.printed s' = E2E.line environ <$> before)
     \/
     (E2E.os_Getenv environ row.1.1 <> "" /\ row.2 = true /\
      E2E.filepath_IsAbs (Platform := E2E.unix) (E2E.os_Getenv environ row.1.1) = false /\
      v = "env " +:+ row.1.1 +:+ "=" +:+
          E2E.fmt_q (Platform := E2E.unix) (E2E.os_Getenv environ row.1.1)
          +:+ " is not a absolute path" /\
      E2E.printed s' = (E2E.line environ <$> before) ++ [E2E.line environ row])).
Proof.
  intros environ v s'.
  assert (Hinit : E2E.init (platform := E2E.unix) environ E2E.zero
                  = E2E.Panicked v s') by (vm_compute; reflexivity).
  split; [exact Hinit|].
  exact (init_panics_at_first_failure (platform := E2E.unix) environ
           E2E.zero s' v Hinit).
Defined.
